(** * march::python::WrapBase

    A model of [libmarch/include/march/python/WrapBase.hpp], the CRTP helper
    that wraps a native class for pybind11:

    - [commit] holds a function-local [static wrapper_type derived(...)] and
      returns a reference to it;
    - the protected constructor builds the member [m_cls], a
      [pybind11::class_<wrapped_type, holder_type>];
    - [def], [def_property], [def_property_readonly] and
      [def_property_readonly_static] forward to [m_cls] and return [*this];
    - the five special members are declared on lines 42-46.

    pybind11 is an external library.  It appears here as the parameters of
    [Section Runtime]: an interpreter state and the primitives the header
    calls on it.  Every call that the header issues is also appended to a
    call log, so that statements such as "exactly one class declaration" can
    be phrased on the history of a run. *)

From stdpp Require Import base option list strings countable gmap.

(* ===================================================================== *)
(** ** C++ types and the template parameters of [WrapBase] *)
(* ===================================================================== *)

(** The types that occur as template arguments: a named class, or one of the
    two standard smart pointers used as pybind11 holders. *)
Inductive cpp_type : Type :=
  | class_type (name : string)
  | std_unique_ptr (pointee : cpp_type)
  | std_shared_ptr (pointee : cpp_type).

#[global] Instance cpp_type_eq_dec : EqDecision cpp_type.
Proof. solve_decision. Defined.

Fixpoint cpp_type_to_tree (t : cpp_type) : gen_tree string :=
  match t with
  | class_type s => GenLeaf s
  | std_unique_ptr p => GenNode 0 [cpp_type_to_tree p]
  | std_shared_ptr p => GenNode 1 [cpp_type_to_tree p]
  end.

Fixpoint cpp_type_of_tree (g : gen_tree string) : cpp_type :=
  match g with
  | GenLeaf s => class_type s
  | GenNode 0 [p] => std_unique_ptr (cpp_type_of_tree p)
  | GenNode _ [p] => std_shared_ptr (cpp_type_of_tree p)
  | GenNode _ _ => class_type ""%string
  end.

Lemma cpp_type_of_to_tree (t : cpp_type) :
  cpp_type_of_tree (cpp_type_to_tree t) = t.
Proof. induction t as [s|p IH|p IH]; simpl; congruence. Qed.

#[global] Instance cpp_type_countable : Countable cpp_type :=
  inj_countable' cpp_type_to_tree cpp_type_of_tree cpp_type_of_to_tree.

(** One instantiation [WrapBase<Wrapper, Wrapped, Holder>], with the default
    of the third parameter already resolved.  Each instantiation has its own
    [commit], hence its own function-local static. *)
Record instantiation : Type := Instantiation {
  wrapper_type : cpp_type;
  wrapped_type : cpp_type;
  holder_type  : cpp_type
}.

#[global] Instance instantiation_eq_dec : EqDecision instantiation.
Proof. solve_decision. Defined.

#[global] Instance instantiation_countable : Countable instantiation :=
  inj_countable'
    (λ i, (wrapper_type i, wrapped_type i, holder_type i))
    (λ '(a, b, c), Instantiation a b c)
    (λ i, match i with Instantiation _ _ _ => eq_refl end).

(** [template< class Wrapper, class Wrapped,
               class Holder = std::unique_ptr<Wrapped> >] (line 25). *)
Definition WrapBase_template
    (Wrapper Wrapped : cpp_type) (Holder : option cpp_type) : instantiation :=
  {| wrapper_type := Wrapper;
     wrapped_type := Wrapped;
     holder_type  := default (std_unique_ptr Wrapped) Holder |}.

(** The four forwarding members generated by
    [DECL_MARCH_PYBIND_CLASS_METHOD] (lines 55-58). *)
Inductive method : Type :=
  | def
  | def_property
  | def_property_readonly
  | def_property_readonly_static.

#[global] Instance method_eq_dec : EqDecision method.
Proof. solve_decision. Defined.

(** A reference to a [WrapBase] object: either the function-local static
    [derived] of an instantiation's [commit], or an object with automatic
    storage, numbered in order of creation. *)
Inductive ref : Type :=
  | static_derived (i : instantiation)
  | automatic (k : nat).

#[global] Instance ref_eq_dec : EqDecision ref.
Proof. solve_decision. Defined.

(** What a call does: return normally, leave by an exception, or have no
    defined behaviour (a reference that designates no live object of the
    expected type). *)
Inductive outcome (E A : Type) : Type :=
  | Returned (a : A)
  | Thrown (e : E)
  | Undefined.
Arguments Returned {E A} a.
Arguments Thrown {E A} e.
Arguments Undefined {E A}.

(* ===================================================================== *)
(** ** The declarations of the class *)
(* ===================================================================== *)

Module Declarations.

(** The header has a [public:] part (line 30) and a [protected:] part
    (line 62); a wrapper may also keep its own constructor private. *)
Inductive access : Type := public | protected | private.

(** The two classes involved: [WrapBase<wrapper_type, wrapped_type,
    holder_type>] itself, and the [wrapper_type] derived from it, which
    line 38 constructs and line 52 casts to. *)
Inductive class_name : Type := WrapBase_class | wrapper_class.

Inductive member : Type :=
  | commit_fn                    (* line 37 *)
  | default_ctor                 (* line 42 *)
  | copy_ctor                    (* line 43 *)
  | move_ctor                    (* line 44 *)
  | copy_assignment              (* line 45 *)
  | move_assignment              (* line 46 *)
  | module_ctor.                 (* line 64; for the wrapper, the
                                    constructor that line 38 calls *)

#[global] Instance member_eq_dec : EqDecision member.
Proof. solve_decision. Defined.

(** What the type of [m_cls] offers; a defaulted copy member is defined as
    deleted when the member cannot be copied that way. *)
Record class_traits : Type := {
  copy_constructible : bool;
  copy_assignable : bool
}.

(** [pybind11::class_] is a [pybind11::object]: copyable both ways. *)
Definition pybind11_class_traits : class_traits :=
  {| copy_constructible := true; copy_assignable := true |}.

(** The wrapper is not part of the header; it is a parameter.  What the
    header needs of it is a constructor taking the module, the name and the
    documentation (line 38).  The wrapper chooses the access of that
    constructor and whether it declares [friend base_type;].  It is taken
    to declare no special member and no data member of its own, so that its
    special members are the implicit ones. *)
Record wrapper_decl : Type := {
  ctor_access : access;
  befriends_base : bool
}.

(** The argument list of an initialisation or the right-hand side of an
    assignment.  An xvalue is an expression such as [std::move(x)]. *)
Inductive value_category : Type := lvalue | xvalue.

Inductive constness : Type := non_const | const_qualified.

Inductive argument : Type :=
  | no_argument
  | object_argument (v : value_category) (q : constness)
  | module_name_doc.

(** Where a use of a member is written, and what a constructor call
    initialises there. *)
Inductive context : Type :=
  | outside_hierarchy
  | member_of_wrapper
  | member_of_WrapBase.

Inductive target : Type := complete_object | base_subobject.

(** How a member takes part in overload resolution. *)
Inductive status : Type :=
  | not_declared      (* no such member *)
  | usable_member
  | deleted_member    (* a candidate; the program is ill-formed if selected *)
  | ignored_member.   (* a defaulted move member that is defined as
                         deleted: not a candidate *)

Inductive verdict : Type :=
  | well_formed (selected : member)
  | uses_deleted (selected : member)
  | inaccessible (selected : member)
  | no_match.

Definition rejected (v : verdict) : bool :=
  match v with
  | well_formed _ => false
  | _ => true
  end.

(** Reference binding of the first parameter: [T const &] binds to every
    object expression, [T &&] to a non-const xvalue only. *)
Definition binds (m : member) (a : argument) : bool :=
  match m, a with
  | default_ctor, no_argument => true
  | copy_ctor, object_argument _ _ => true
  | move_ctor, object_argument xvalue non_const => true
  | copy_assignment, object_argument _ _ => true
  | move_assignment, object_argument xvalue non_const => true
  | module_ctor, module_name_doc => true
  | _, _ => false
  end.

(** Candidate lists, best match first: for a non-const xvalue, [T &&] is a
    better match than [T const &]. *)
Definition constructors : list member :=
  [move_ctor; copy_ctor; default_ctor; module_ctor].

Definition assignments : list member :=
  [move_assignment; copy_assignment].

Definition is_candidate (s : status) : bool :=
  match s with
  | usable_member | deleted_member => true
  | not_declared | ignored_member => false
  end.

(** Overload resolution followed by the checks on the function selected. *)
Definition check (st : member → status) (acc : member → bool)
    (candidates : list member) (a : argument) : verdict :=
  match List.filter (λ m, binds m a && is_candidate (st m)) candidates with
  | [] => no_match
  | best :: _ =>
      match st best with
      | deleted_member => uses_deleted best
      | _ => if acc best then well_formed best else inaccessible best
      end
  end.

(** Lines 30 and 62 for [WrapBase]; for the wrapper, its constructor has the
    access the wrapper gave it, and what it inherits or gets implicitly is
    public. *)
Definition member_access (wd : wrapper_decl) (c : class_name) (m : member) :
    access :=
  match c, m with
  | WrapBase_class, module_ctor => protected
  | WrapBase_class, _ => public
  | wrapper_class, module_ctor => ctor_access wd
  | wrapper_class, _ => public
  end.

(** Access control.  A member of a class and a friend of it may use all its
    members.  A member of the wrapper may use the protected constructor of
    [WrapBase] only to initialise its own base subobject.  [WrapBase] is no
    derived class of the wrapper: it may use a non-public member of the
    wrapper only as a friend. *)
Definition accessible (wd : wrapper_decl) (ctx : context) (tgt : target)
    (c : class_name) (m : member) : bool :=
  match member_access wd c m with
  | public => true
  | protected =>
      match c, ctx with
      | WrapBase_class, member_of_WrapBase => true
      | WrapBase_class, member_of_wrapper =>
          match tgt with base_subobject => true | complete_object => false end
      | wrapper_class, member_of_wrapper => true
      | wrapper_class, member_of_WrapBase => befriends_base wd
      | _, outside_hierarchy => false
      end
  | private =>
      match c, ctx with
      | WrapBase_class, member_of_WrapBase => true
      | wrapper_class, member_of_wrapper => true
      | wrapper_class, member_of_WrapBase => befriends_base wd
      | _, _ => false
      end
  end.

(** Lines 42-46 and 64. *)
Definition WrapBase_status (tr : class_traits) (m : member) : status :=
  match m with
  | default_ctor | move_ctor | move_assignment => deleted_member
  | copy_ctor =>
      if copy_constructible tr then usable_member else deleted_member
  | copy_assignment =>
      if copy_assignable tr then usable_member else deleted_member
  | commit_fn | module_ctor => usable_member
  end.

(** How an implicit special member of the wrapper treats its base
    subobject. *)
Definition base_part (tr : class_traits) (wd : wrapper_decl)
    (candidates : list member) (a : argument) : verdict :=
  check (WrapBase_status tr)
    (accessible wd member_of_wrapper base_subobject WrapBase_class)
    candidates a.

(** The wrapper declares a constructor, so it has no implicit default
    constructor.  Its copy members are implicit and defaulted: deleted when
    the base cannot be copied.  Its move members are implicit and
    defaulted: when the base cannot be moved they are defined as deleted,
    and such a move member is ignored by overload resolution. *)
Definition wrapper_status (tr : class_traits) (wd : wrapper_decl)
    (m : member) : status :=
  match m with
  | default_ctor => not_declared
  | copy_ctor =>
      match base_part tr wd constructors (object_argument lvalue const_qualified) with
      | well_formed _ => usable_member
      | _ => deleted_member
      end
  | move_ctor =>
      match base_part tr wd constructors (object_argument xvalue non_const) with
      | well_formed _ => usable_member
      | _ => ignored_member
      end
  | copy_assignment =>
      match base_part tr wd assignments (object_argument lvalue const_qualified) with
      | well_formed _ => usable_member
      | _ => deleted_member
      end
  | move_assignment =>
      match base_part tr wd assignments (object_argument xvalue non_const) with
      | well_formed _ => usable_member
      | _ => ignored_member
      end
  | commit_fn | module_ctor => usable_member
  end.

Definition class_status (tr : class_traits) (wd : wrapper_decl)
    (c : class_name) : member → status :=
  match c with
  | WrapBase_class => WrapBase_status tr
  | wrapper_class => wrapper_status tr wd
  end.

(** Compiling the initialisation of an object of class [c], or of the base
    subobject, from [a], and the assignment [x = a] to an object of class
    [c]. *)
Definition construct (tr : class_traits) (wd : wrapper_decl) (ctx : context)
    (tgt : target) (c : class_name) (a : argument) : verdict :=
  check (class_status tr wd c) (accessible wd ctx tgt c) constructors a.

Definition assign (tr : class_traits) (wd : wrapper_decl) (ctx : context)
    (c : class_name) (a : argument) : verdict :=
  check (class_status tr wd c) (accessible wd ctx complete_object c)
    assignments a.

(** Line 38, [static wrapper_type derived(mod, pyname, clsdoc);], is
    written in a member of [WrapBase]. *)
Definition line_38 (tr : class_traits) (wd : wrapper_decl) : verdict :=
  construct tr wd member_of_WrapBase complete_object wrapper_class
    module_name_doc.

(** A wrapper whose constructor is public, and one that hides it and
    befriends its base. *)
Definition open_wrapper : wrapper_decl :=
  {| ctor_access := public; befriends_base := false |}.

Definition closed_wrapper : wrapper_decl :=
  {| ctor_access := private; befriends_base := true |}.

End Declarations.

(* ===================================================================== *)
(** ** A small host *)
(* ===================================================================== *)

(** Modelled from the spec: the host module abstraction of section 6
    (pybind11 is not part of the repository).  Declaring a class fails when
    the name is already taken in the module; a member declaration adds one
    entry to the member table of the class.  It serves to run the model on
    concrete inputs. *)
Module Toy.

Record toy_class : Type := {
  c_module  : string;
  c_name    : string;
  c_doc     : string;
  c_wrapped : cpp_type;
  c_holder  : cpp_type;
  c_members : list (method * string)
}.

Definition name_taken (pymod pyname : string) (h : list toy_class) : bool :=
  existsb (λ c, String.eqb (c_module c) pymod && String.eqb (c_name c) pyname) h.

Definition class_ctor (wrapped holder : cpp_type) (pymod pyname clsdoc : string)
    (h : list toy_class) : list toy_class * (string + nat) :=
  if name_taken pymod pyname h then (h, inl "name already taken"%string)
  else (h ++ [{| c_module := pymod; c_name := pyname; c_doc := clsdoc;
                 c_wrapped := wrapped; c_holder := holder;
                 c_members := [] |}],
        inr (length h)).

Definition add_member (meth : method) (name : string) (c : toy_class) : toy_class :=
  {| c_module := c_module c; c_name := c_name c; c_doc := c_doc c;
     c_wrapped := c_wrapped c; c_holder := c_holder c;
     c_members := c_members c ++ [(meth, name)] |}.

Definition class_method (meth : method) (cls : nat) (name : string)
    (h : list toy_class) : list toy_class * (string + nat) :=
  match h !! cls with
  | Some c => (<[cls := add_member meth name c]> h, inr cls)
  | None => (h, inl "no such class"%string)
  end.

Definition class_copy (cls : nat) (h : list toy_class) : list toy_class := h.

Definition class_assign (old new : nat) (h : list toy_class) : list toy_class := h.

(** [WrapBase<WrapVector, Vector>] and [WrapBase<WrapMatrix, Matrix>]. *)
Definition WrapVector : instantiation :=
  WrapBase_template (class_type "WrapVector") (class_type "Vector") None.

Definition WrapMatrix : instantiation :=
  WrapBase_template (class_type "WrapMatrix") (class_type "Matrix") None.

End Toy.

(** The result of a pybind11 primitive with the value it returns left out:
    the new interpreter state, and whether it threw. *)
Definition without_result {S E A : Type} (x : S * (E + A)) : S * (E + unit) :=
  (fst x, match snd x with inl e => inl e | inr _ => inr tt end).

(* ===================================================================== *)
(** ** The run-time model *)
(* ===================================================================== *)

Section Runtime.

(** The pybind11 side.  [Module] is a [pybind11::module], [Handle] the
    object pointer held by a [pybind11::class_], [Args] a forwarded
    argument pack, [Failure] whatever pybind11 throws, and [HostState] the
    state of the interpreter. *)
Context {Module Handle Args Failure HostState : Type}.

(** [pybind11::class_<wrapped, holder>(mod, pyname, clsdoc)]. *)
Variable class_ctor :
  cpp_type → cpp_type → Module → string → string →
  HostState → HostState * (Failure + Handle).

(** [cls.METHOD(args...)]; on success it returns a [class_ &]. *)
Variable class_method :
  method → Handle → Args → HostState → HostState * (Failure + Handle).

(** Copy construction and copy assignment of a [pybind11::class_]: the
    pointer is copied, the interpreter only adjusts reference counts. *)
Variable class_copy : Handle → HostState → HostState.
Variable class_assign : Handle → Handle → HostState → HostState.

(** The only data member (line 68). *)
Record WrapBase : Type := { m_cls : Handle }.

(** Calls issued to pybind11, in the order in which they are issued. *)
Inductive host_call : Type :=
  | class_ctor_call (issuer : instantiation) (wrapped holder : cpp_type)
      (pymod : Module) (pyname clsdoc : string) (created : option Handle)
  | class_method_call (meth : method) (cls : Handle) (args : Args)
  | class_copy_call (cls : Handle)
  | class_assign_call (old new : Handle).

Record world : Type := World {
  host    : HostState;
  calls   : list host_call;
  statics : gmap instantiation WrapBase;
  autos   : list (instantiation * WrapBase)
}.

Definition with_host (f : HostState → HostState) (c : host_call)
    (w : world) : world :=
  {| host := f (host w); calls := calls w ++ [c];
     statics := statics w; autos := autos w |}.

Definition set_static (i : instantiation) (o : WrapBase) (w : world) : world :=
  {| host := host w; calls := calls w;
     statics := <[i := o]> (statics w); autos := autos w |}.

Definition push_auto (i : instantiation) (o : WrapBase) (w : world) : world :=
  {| host := host w; calls := calls w;
     statics := statics w; autos := autos w ++ [(i, o)] |}.

Definition set_auto (k : nat) (i : instantiation) (o : WrapBase)
    (w : world) : world :=
  {| host := host w; calls := calls w;
     statics := statics w; autos := <[k := (i, o)]> (autos w) |}.

(** The object of type [WrapBase<i>] that [r] designates, if any. *)
Definition deref (i : instantiation) (r : ref) (w : world) : option WrapBase :=
  match r with
  | static_derived j =>
      if decide (j = i) then statics w !! j else None
  | automatic k =>
      match autos w !! k with
      | Some (j, o) => if decide (j = i) then Some o else None
      | None => None
      end
  end.

Definition store (i : instantiation) (r : ref) (o : WrapBase) (w : world) : world :=
  match r with
  | static_derived j => set_static j o w
  | automatic k => set_auto k i o w
  end.

(** Computations: state passing with exceptions. *)
Definition M (A : Type) : Type := world → outcome Failure A * world.

Definition ret {A} (a : A) : M A := λ w, (Returned a, w).

Definition bind {A B} (m : M A) (k : A → M B) : M B :=
  λ w, match m w with
       | (Returned a, w') => k a w'
       | (Thrown e, w') => (Thrown e, w')
       | (Undefined, w') => (Undefined, w')
       end.

Definition this_object (i : instantiation) (r : ref) : M WrapBase :=
  λ w, match deref i r w with
       | Some o => (Returned o, w)
       | None => (Undefined, w)
       end.

(** The call [pybind11::class_<wrapped_type, holder_type>(mod, pyname,
    clsdoc)] as issued by [WrapBase<i>]. *)
Definition call_class_ctor (i : instantiation) (pymod : Module)
    (pyname clsdoc : string) : M Handle :=
  λ w, match class_ctor (wrapped_type i) (holder_type i) pymod pyname clsdoc (host w) with
       | (h', inr cls) =>
           (Returned cls,
            with_host (λ _, h')
              (class_ctor_call i (wrapped_type i) (holder_type i)
                 pymod pyname clsdoc (Some cls)) w)
       | (h', inl e) =>
           (Thrown e,
            with_host (λ _, h')
              (class_ctor_call i (wrapped_type i) (holder_type i)
                 pymod pyname clsdoc None) w)
       end.

(** The call [m_cls.METHOD(std::forward<Args>(args)...)]. *)
Definition call_class_method (meth : method) (cls : Handle) (args : Args) :
    M Handle :=
  λ w, match class_method meth cls args (host w) with
       | (h', inr ret_ref) =>
           (Returned ret_ref,
            with_host (λ _, h') (class_method_call meth cls args) w)
       | (h', inl e) =>
           (Thrown e,
            with_host (λ _, h') (class_method_call meth cls args) w)
       end.

(** Lines 64-66: the protected constructor, [m_cls] being initialised from
    a freshly constructed [pybind11::class_]. *)
Definition WrapBase_ctor (i : instantiation) (pymod : Module)
    (pyname clsdoc : string) : M WrapBase :=
  bind (call_class_ctor i pymod pyname clsdoc) (λ cls,
  ret {| m_cls := cls |}).

(** Lines 37-40.  The declaration of the function-local static is skipped
    once its initialisation has completed; an initialisation that exits by
    an exception is not complete, and is tried again the next time control
    passes through the declaration.  [wrapper_type]'s own constructor is
    not part of the header; it is taken to delegate to the constructor of
    its base. *)
Definition commit (i : instantiation) (pymod : Module)
    (pyname clsdoc : string) : M ref :=
  λ w, match statics w !! i with
       | Some _ => (Returned (static_derived i), w)
       | None =>
           match WrapBase_ctor i pymod pyname clsdoc w with
           | (Returned derived, w') =>
               (Returned (static_derived i), set_static i derived w')
           | (Thrown e, w') => (Thrown e, w')
           | (Undefined, w') => (Undefined, w')
           end
       end.

(** Lines 48-53: [m_cls.METHOD(args...); return *static_cast<wrapper_type*>(this);]
    The receiver is the [WrapBase] part of a [wrapper_type] object, for
    which the cast of line 52 gives back the receiver; the cast of a
    [WrapBase] that is no part of a wrapper has no defined behaviour and is
    not represented. *)
Definition forward (meth : method) (i : instantiation) (this : ref)
    (args : Args) : M ref :=
  bind (this_object i this) (λ self,
  bind (call_class_method meth (m_cls self) args) (λ _,
  ret this)).

(** Line 43: [WrapBase(WrapBase const &) = default], initialising a new
    automatic object. *)
Definition copy_construct (i : instantiation) (src : ref) : M ref :=
  λ w, match deref i src w with
       | Some o =>
           let w' := with_host (class_copy (m_cls o)) (class_copy_call (m_cls o)) w in
           (Returned (automatic (length (autos w'))),
            push_auto i {| m_cls := m_cls o |} w')
       | None => (Undefined, w)
       end.

(** Line 45: [WrapBase & operator=(WrapBase const &) = default]. *)
Definition copy_assign (i : instantiation) (this src : ref) : M ref :=
  λ w, match deref i this w, deref i src w with
       | Some self, Some o =>
           let w' := with_host (class_assign (m_cls self) (m_cls o))
                       (class_assign_call (m_cls self) (m_cls o)) w in
           (Returned this, store i this {| m_cls := m_cls o |} w')
       | _, _ => (Undefined, w)
       end.

(** *** Fluent chains and plain statement sequences *)

(** [this.m1(a1).m2(a2)...]: each call is made on the reference that the
    previous call returned. *)
Fixpoint chain (i : instantiation) (this : ref)
    (cs : list (method * Args)) : M ref :=
  match cs with
  | [] => ret this
  | (meth, args) :: rest =>
      bind (forward meth i this args) (λ r, chain i r rest)
  end.

(** [this.m1(a1); this.m2(a2); ...]: each call is made on [this]. *)
Fixpoint each_on (i : instantiation) (this : ref)
    (cs : list (method * Args)) : M ref :=
  match cs with
  | [] => ret this
  | (meth, args) :: rest =>
      bind (forward meth i this args) (λ _, each_on i this rest)
  end.

(** *** Client programs *)

(** What code outside the class hierarchy can do with the class: the
    public, non-deleted members. *)
Inductive operation : Type :=
  | op_commit (i : instantiation) (pymod : Module) (pyname clsdoc : string)
  | op_forward (meth : method) (i : instantiation) (this : ref) (args : Args)
  | op_copy_construct (i : instantiation) (src : ref)
  | op_copy_assign (i : instantiation) (this src : ref).

Definition run_op (op : operation) : M ref :=
  match op with
  | op_commit i pymod pyname clsdoc => commit i pymod pyname clsdoc
  | op_forward meth i this args => forward meth i this args
  | op_copy_construct i src => copy_construct i src
  | op_copy_assign i this src => copy_assign i this src
  end.

(** The instantiation whose member an operation calls. *)
Definition operation_type (op : operation) : instantiation :=
  match op with
  | op_commit i _ _ _ => i
  | op_forward _ i _ _ => i
  | op_copy_construct i _ => i
  | op_copy_assign i _ _ => i
  end.

(** A client program is a sequence of operations; an exception thrown by
    one of them is caught by the client, which then carries on. *)
Fixpoint run_ops (ops : list operation) (w : world) : world :=
  match ops with
  | [] => w
  | op :: rest => run_ops rest (snd (run_op op w))
  end.

(** Process start: nothing has been declared by this header, no static
    has been initialised, no object exists. *)
Definition initial (h : HostState) : world :=
  {| host := h; calls := []; statics := ∅; autos := [] |}.

Definition reachable (w : world) : Prop :=
  ∃ h ops, w = run_ops ops (initial h).

(** *** Reading the call log *)

(** The class declarations that [WrapBase<i>] requested. *)
Definition issued (i : instantiation) (l : list host_call) :
    list (Module * string * string) :=
  omap (λ c, match c with
             | class_ctor_call j _ _ pymod pyname clsdoc _ =>
                 if decide (j = i) then Some (pymod, pyname, clsdoc) else None
             | _ => None
             end) l.

(** The class handles that pybind11 created for [WrapBase<i>]. *)
Definition created (i : instantiation) (l : list host_call) : list Handle :=
  omap (λ c, match c with
             | class_ctor_call j _ _ _ _ _ (Some cls) =>
                 if decide (j = i) then Some cls else None
             | _ => None
             end) l.

(** The log entries of the member declarations [cs] made on [cls], and the
    interpreter state after pybind11 has processed them one after the
    other. *)
Definition sent (cls : Handle) (cs : list (method * Args)) : list host_call :=
  map (λ c, class_method_call (fst c) cls (snd c)) cs.

Definition host_after (cls : Handle) (cs : list (method * Args))
    (h : HostState) : HostState :=
  foldl (λ h c, fst (class_method (fst c) cls (snd c) h)) h cs.

(** The same declarations written as separate statements of a client. *)
Definition forward_ops (i : instantiation) (this : ref)
    (cs : list (method * Args)) : list operation :=
  map (λ c, op_forward (fst c) i this (snd c)) cs.

(** The invariant of every run: the handles created for an instantiation
    are exactly the one held by its static, and every other object of
    that type is a copy of the static. *)
Record consistent (w : world) : Prop := Consistent {
  created_static : ∀ i,
    created i (calls w) =
      match statics w !! i with Some o => [m_cls o] | None => [] end;
  autos_static : ∀ k j o,
    autos w !! k = Some (j, o) → statics w !! j = Some o
}.

(** *** Unfolding lemmas *)

Lemma commit_registered i pymod pyname clsdoc w o :
  statics w !! i = Some o →
  commit i pymod pyname clsdoc w = (Returned (static_derived i), w).
Proof. intros H. unfold commit. by rewrite H. Qed.

Lemma commit_first_success i pymod pyname clsdoc w h' cls :
  statics w !! i = None →
  class_ctor (wrapped_type i) (holder_type i) pymod pyname clsdoc (host w)
    = (h', inr cls) →
  commit i pymod pyname clsdoc w =
    (Returned (static_derived i),
     set_static i {| m_cls := cls |}
       (with_host (λ _, h')
          (class_ctor_call i (wrapped_type i) (holder_type i)
             pymod pyname clsdoc (Some cls)) w)).
Proof.
  intros Hs Hc.
  unfold commit, WrapBase_ctor, bind, call_class_ctor, ret.
  by rewrite Hs, Hc.
Qed.

Lemma commit_first_failure i pymod pyname clsdoc w h' e :
  statics w !! i = None →
  class_ctor (wrapped_type i) (holder_type i) pymod pyname clsdoc (host w)
    = (h', inl e) →
  commit i pymod pyname clsdoc w =
    (Thrown e,
     with_host (λ _, h')
       (class_ctor_call i (wrapped_type i) (holder_type i)
          pymod pyname clsdoc None) w).
Proof.
  intros Hs Hc.
  unfold commit, WrapBase_ctor, bind, call_class_ctor, ret.
  by rewrite Hs, Hc.
Qed.

Lemma forward_live meth i this args w self :
  deref i this w = Some self →
  forward meth i this args w =
    (match snd (class_method meth (m_cls self) args (host w)) with
     | inr _ => Returned this
     | inl e => Thrown e
     end,
     with_host (λ _, fst (class_method meth (m_cls self) args (host w)))
       (class_method_call meth (m_cls self) args) w).
Proof.
  intros H. unfold forward, bind, this_object, call_class_method, ret.
  rewrite H.
  by destruct (class_method meth (m_cls self) args (host w)) as [h' [e|c]].
Qed.

Lemma forward_dangling meth i this args w :
  deref i this w = None →
  forward meth i this args w = (Undefined, w).
Proof.
  intros H. unfold forward, bind, this_object. by rewrite H.
Qed.

(** A change of the interpreter state and of the call log moves no object. *)
Lemma deref_with_host j r f c w :
  deref j r (with_host f c w) = deref j r w.
Proof. by destruct r. Qed.

Lemma forward_frame meth i this args w :
  statics (snd (forward meth i this args w)) = statics w ∧
  autos (snd (forward meth i this args w)) = autos w.
Proof.
  destruct (deref i this w) as [self|] eqn:H.
  - by rewrite (forward_live _ _ _ _ _ _ H).
  - by rewrite (forward_dangling _ _ _ _ _ H).
Qed.

Lemma forward_deref meth i this args w j r :
  deref j r (snd (forward meth i this args w)) = deref j r w.
Proof.
  destruct (forward_frame meth i this args w) as [Hs Ha].
  unfold deref. by rewrite Hs, Ha.
Qed.

(** *** Reading the log after one more call *)

Lemma issued_snoc i l c :
  issued i (l ++ [c]) = issued i l ++ issued i [c].
Proof. unfold issued. by rewrite omap_app. Qed.

Lemma created_snoc i l c :
  created i (l ++ [c]) = created i l ++ created i [c].
Proof. unfold created. by rewrite omap_app. Qed.

(** *** The invariant *)

Lemma consistent_initial h : consistent (initial h).
Proof.
  split; simpl.
  - intros i. by rewrite lookup_empty.
  - intros k j o H. by rewrite lookup_nil in H.
Qed.

Lemma consistent_deref w i r o :
  consistent w → deref i r w = Some o → statics w !! i = Some o.
Proof.
  intros [_ Ha] H. destruct r as [j|k]; simpl in H.
  - case_decide; by subst.
  - destruct (autos w !! k) as [[j o']|] eqn:Hk; [|done].
    case_decide; [|done]. simplify_eq. eauto.
Qed.

Lemma consistent_commit i pymod pyname clsdoc w :
  consistent w → consistent (snd (commit i pymod pyname clsdoc w)).
Proof.
  intros Hw. destruct (statics w !! i) as [o|] eqn:Hs.
  { by rewrite (commit_registered _ _ _ _ _ _ Hs). }
  destruct (class_ctor (wrapped_type i) (holder_type i) pymod pyname clsdoc (host w))
    as [h' [e|cls]] eqn:Hc.
  - rewrite (commit_first_failure _ _ _ _ _ _ _ Hs Hc). simpl.
    destruct Hw as [Hcr Ha]. split; simpl; [|done].
    intros j. rewrite created_snoc, Hcr. simpl. by rewrite app_nil_r.
  - rewrite (commit_first_success _ _ _ _ _ _ _ Hs Hc). simpl.
    destruct Hw as [Hcr Ha]. split; simpl.
    + intros j. rewrite created_snoc, Hcr. simpl.
      destruct (decide (i = j)) as [->|Hne].
      * by rewrite Hs, lookup_insert_eq.
      * rewrite lookup_insert_ne by done. by rewrite app_nil_r.
    + intros k j o Hk. specialize (Ha _ _ _ Hk).
      rewrite lookup_insert_ne; [done|]. congruence.
Qed.

Lemma consistent_forward meth i this args w :
  consistent w → consistent (snd (forward meth i this args w)).
Proof.
  intros Hw. destruct (deref i this w) as [self|] eqn:H.
  - rewrite (forward_live _ _ _ _ _ _ H). simpl.
    destruct Hw as [Hcr Ha]. split; simpl; [|done].
    intros j. rewrite created_snoc, Hcr. simpl. by rewrite app_nil_r.
  - by rewrite (forward_dangling _ _ _ _ _ H).
Qed.

Lemma consistent_copy_construct i src w :
  consistent w → consistent (snd (copy_construct i src w)).
Proof.
  intros Hw. unfold copy_construct.
  destruct (deref i src w) as [o|] eqn:H; [|done]. simpl.
  pose proof (consistent_deref _ _ _ _ Hw H) as Hst.
  destruct Hw as [Hcr Ha]. split; simpl.
  - intros j. rewrite created_snoc, Hcr. simpl. by rewrite app_nil_r.
  - intros k j o' Hk. apply lookup_app_Some in Hk as [Hk|[_ Hk]]; [eauto|].
    apply list_lookup_singleton_Some in Hk as [_ Hk]. simplify_eq.
    by destruct o.
Qed.

Lemma consistent_copy_assign i this src w :
  consistent w → consistent (snd (copy_assign i this src w)).
Proof.
  intros Hw. unfold copy_assign.
  destruct (deref i this w) as [self|] eqn:Ht; [|done].
  destruct (deref i src w) as [o|] eqn:Hsrc; [|done]. simpl.
  pose proof (consistent_deref _ _ _ _ Hw Hsrc) as Hst.
  destruct Hw as [Hcr Ha]. destruct o as [c]. simpl.
  destruct this as [j|k]; simpl in *.
  - case_decide; [|done]. subst j. split; simpl.
    + intros j. rewrite created_snoc, Hcr. simpl. rewrite app_nil_r.
      destruct (decide (i = j)) as [->|Hne].
      * by rewrite Hst, lookup_insert_eq.
      * by rewrite lookup_insert_ne.
    + intros k j o' Hk. specialize (Ha _ _ _ Hk).
      destruct (decide (i = j)) as [->|Hne].
      * rewrite lookup_insert_eq. congruence.
      * by rewrite lookup_insert_ne.
  - split; simpl.
    + intros j. rewrite created_snoc, Hcr. simpl. by rewrite app_nil_r.
    + intros k' j o' Hk.
      destruct (decide (k = k')) as [->|Hne].
      * destruct (autos w !! k') as [[j0 o0]|] eqn:Hk0; [|done].
        rewrite list_lookup_insert_eq in Hk
          by (by eapply lookup_lt_Some).
        by simplify_eq.
      * rewrite list_lookup_insert_ne in Hk by done. eauto.
Qed.

Lemma consistent_run_op op w :
  consistent w → consistent (snd (run_op op w)).
Proof.
  destruct op; simpl.
  - apply consistent_commit.
  - apply consistent_forward.
  - apply consistent_copy_construct.
  - apply consistent_copy_assign.
Qed.

Lemma consistent_run_ops ops w :
  consistent w → consistent (run_ops ops w).
Proof.
  revert w. induction ops as [|op ops IH]; intros w Hw; simpl; [done|].
  apply IH, consistent_run_op, Hw.
Qed.

Lemma reachable_consistent w : reachable w → consistent w.
Proof.
  intros (h & ops & ->). apply consistent_run_ops, consistent_initial.
Qed.

Lemma reachable_run_ops ops w : reachable w → reachable (run_ops ops w).
Proof.
  intros (h & ops0 & ->). exists h, (ops0 ++ ops).
  generalize (initial h). induction ops0 as [|op ops0 IH]; intros w; simpl; [done|].
  apply IH.
Qed.

(** Once the static of [WrapBase<i>] is initialised, no operation replaces
    it or requests another declaration for [i]. *)
Lemma registered_run_op i o op w :
  consistent w → statics w !! i = Some o →
  statics (snd (run_op op w)) !! i = Some o ∧
  issued i (calls (snd (run_op op w))) = issued i (calls w).
Proof.
  intros Hw Hi. destruct op as [j pymod pyname clsdoc|meth j this args|j src|j this src]; simpl.
  - destruct (statics w !! j) as [oj|] eqn:Hj.
    { by rewrite (commit_registered _ _ _ _ _ _ Hj). }
    assert (j ≠ i) as Hne by congruence.
    destruct (class_ctor (wrapped_type j) (holder_type j) pymod pyname clsdoc (host w))
      as [h' [e|cls]] eqn:Hc.
    + rewrite (commit_first_failure _ _ _ _ _ _ _ Hj Hc). simpl.
      split; [done|]. rewrite issued_snoc. simpl.
      rewrite decide_False by done. by rewrite app_nil_r.
    + rewrite (commit_first_success _ _ _ _ _ _ _ Hj Hc). simpl.
      split; [by rewrite lookup_insert_ne|]. rewrite issued_snoc. simpl.
      rewrite decide_False by done. by rewrite app_nil_r.
  - destruct (deref j this w) as [self|] eqn:H.
    + rewrite (forward_live _ _ _ _ _ _ H). simpl.
      split; [done|]. rewrite issued_snoc. simpl. by rewrite app_nil_r.
    + by rewrite (forward_dangling _ _ _ _ _ H).
  - unfold copy_construct. destruct (deref j src w) as [oj|] eqn:H; [|done].
    simpl. split; [done|]. rewrite issued_snoc. simpl. by rewrite app_nil_r.
  - unfold copy_assign.
    destruct (deref j this w) as [self|] eqn:Ht; [|done].
    destruct (deref j src w) as [oj|] eqn:Hsrc; [|done]. simpl.
    pose proof (consistent_deref _ _ _ _ Hw Hsrc) as Hst.
    split.
    + destruct this as [j'|k]; simpl in *; [|done].
      case_decide; [|done]. subst j'.
      destruct (decide (j = i)) as [->|Hne].
      * rewrite lookup_insert_eq. destruct oj. simpl. congruence.
      * by rewrite lookup_insert_ne.
    + destruct this; simpl; rewrite issued_snoc; simpl; by rewrite app_nil_r.
Qed.

Lemma registered_run_ops i o ops w :
  consistent w → statics w !! i = Some o →
  statics (run_ops ops w) !! i = Some o ∧
  issued i (calls (run_ops ops w)) = issued i (calls w).
Proof.
  revert w. induction ops as [|op ops IH]; intros w Hw Hi; simpl; [done|].
  destruct (registered_run_op i o op w Hw Hi) as [Hs Hl].
  destruct (IH _ (consistent_run_op op w Hw) Hs) as [Hs' Hl'].
  split; [done|]. by rewrite Hl', Hl.
Qed.

(* ===================================================================== *)
(** ** Properties of [commit] *)
(* ===================================================================== *)

(** C1.  After the first call of [commit] for an instantiation has built the
    static, every later call, whatever module, name and documentation it is
    given and whatever the client did in between, returns the same
    reference and leaves the whole world as it is; the object designated is
    still the one built by the first call; and the log holds no class
    declaration for that instantiation beyond the one of the first call,
    which carries the first name and documentation. *)
Theorem commit_returns_the_first_instance
    i pymod1 pyname1 clsdoc1 w0 r1 w1 ops pymod2 pyname2 clsdoc2 :
  reachable w0 →
  statics w0 !! i = None →
  commit i pymod1 pyname1 clsdoc1 w0 = (Returned r1, w1) →
  commit i pymod2 pyname2 clsdoc2 (run_ops ops w1)
    = (Returned r1, run_ops ops w1) ∧
  is_Some (deref i r1 w1) ∧
  deref i r1 (run_ops ops w1) = deref i r1 w1 ∧
  issued i (calls (run_ops ops w1))
    = issued i (calls w0) ++ [(pymod1, pyname1, clsdoc1)].
Proof.
  intros Hr Hs Hc.
  pose proof (reachable_consistent _ Hr) as Hw0.
  pose proof (consistent_commit i pymod1 pyname1 clsdoc1 w0 Hw0) as Hw1.
  rewrite Hc in Hw1. simpl in Hw1.
  destruct (class_ctor (wrapped_type i) (holder_type i) pymod1 pyname1 clsdoc1 (host w0))
    as [h' [e|cls]] eqn:Hh.
  { by rewrite (commit_first_failure _ _ _ _ _ _ _ Hs Hh) in Hc. }
  rewrite (commit_first_success _ _ _ _ _ _ _ Hs Hh) in Hc.
  injection Hc as <- <-.
  set (w1 := set_static i _ _) in *.
  assert (statics w1 !! i = Some {| m_cls := cls |}) as Hi
    by (subst w1; simpl; apply lookup_insert_eq).
  destruct (registered_run_ops i _ ops w1 Hw1 Hi) as [Hi2 Hl].
  split; [by apply (commit_registered _ _ _ _ _ _ Hi2)|].
  unfold deref. rewrite !decide_True by done.
  split; [by rewrite Hi|]. split; [by rewrite Hi, Hi2|].
  rewrite Hl. subst w1. simpl. rewrite issued_snoc. simpl.
  by rewrite decide_True.
Qed.

(** C2.  On the first call for an instantiation, when pybind11 builds the
    class, [commit] has issued exactly the call
    [class_<wrapped_type, holder_type>(mod, pyname, clsdoc)], the handle
    obtained is stored in [m_cls] of the static, and the reference returned
    designates that static; nothing else is touched.  When the third
    template argument is omitted the holder is [std::unique_ptr<Wrapped>]. *)
Theorem commit_first_call_declares_class i pymod pyname clsdoc w h' cls :
  statics w !! i = None →
  class_ctor (wrapped_type i) (holder_type i) pymod pyname clsdoc (host w)
    = (h', inr cls) →
  ∃ w',
    commit i pymod pyname clsdoc w = (Returned (static_derived i), w') ∧
    deref i (static_derived i) w' = Some {| m_cls := cls |} ∧
    host w' = h' ∧
    calls w' = calls w ++
      [class_ctor_call i (wrapped_type i) (holder_type i)
         pymod pyname clsdoc (Some cls)] ∧
    autos w' = autos w ∧
    (∀ j, j ≠ i → statics w' !! j = statics w !! j) ∧
    (∀ Wrapper Wrapped,
       holder_type (WrapBase_template Wrapper Wrapped None)
         = std_unique_ptr Wrapped) ∧
    (∀ Wrapper Wrapped Holder,
       holder_type (WrapBase_template Wrapper Wrapped (Some Holder)) = Holder).
Proof.
  intros Hs Hc. eexists. split; [by apply commit_first_success|].
  simpl. rewrite decide_True by done. rewrite lookup_insert_eq.
  repeat split; try done.
  intros j Hne. by rewrite lookup_insert_ne.
Qed.

(** C3.  When pybind11 refuses the class on the first call, [commit] leaves
    by that same failure after a single attempt, the static stays
    uninitialised and no object has appeared; the next call does not give
    back a broken instance but requests the declaration again, with the
    arguments of that next call. *)
Theorem commit_failure_is_not_cached i pymod pyname clsdoc w h' e :
  statics w !! i = None →
  class_ctor (wrapped_type i) (holder_type i) pymod pyname clsdoc (host w)
    = (h', inl e) →
  ∃ w',
    commit i pymod pyname clsdoc w = (Thrown e, w') ∧
    statics w' = statics w ∧
    autos w' = autos w ∧
    deref i (static_derived i) w' = None ∧
    host w' = h' ∧
    calls w' = calls w ++
      [class_ctor_call i (wrapped_type i) (holder_type i)
         pymod pyname clsdoc None] ∧
    ∀ pymod2 pyname2 clsdoc2,
      calls (snd (commit i pymod2 pyname2 clsdoc2 w')) =
        calls w' ++
        [class_ctor_call i (wrapped_type i) (holder_type i)
           pymod2 pyname2 clsdoc2
           match snd (class_ctor (wrapped_type i) (holder_type i)
                        pymod2 pyname2 clsdoc2 h') with
           | inr cls => Some cls
           | inl _ => None
           end] ∧
      fst (commit i pymod2 pyname2 clsdoc2 w') =
        match snd (class_ctor (wrapped_type i) (holder_type i)
                     pymod2 pyname2 clsdoc2 h') with
        | inr _ => Returned (static_derived i)
        | inl e2 => Thrown e2
        end ∧
      statics (snd (commit i pymod2 pyname2 clsdoc2 w')) !! i =
        match snd (class_ctor (wrapped_type i) (holder_type i)
                     pymod2 pyname2 clsdoc2 h') with
        | inr cls => Some {| m_cls := cls |}
        | inl _ => None
        end.
Proof.
  intros Hs Hc. eexists. split; [by apply commit_first_failure|].
  simpl. rewrite decide_True by done.
  repeat split; try done.
  all: destruct (class_ctor (wrapped_type i) (holder_type i)
                   pymod2 pyname2 clsdoc2 h') as [h2 [e2|cls2]] eqn:Hc2.
  all: first
    [ erewrite commit_first_failure by (simpl; eauto)
    | erewrite commit_first_success by (simpl; eauto) ].
  all: simpl; try done.
  by rewrite lookup_insert_eq.
Qed.

(* ===================================================================== *)
(** ** Properties of the forwarding members *)
(* ===================================================================== *)

Lemma forward_returned meth i this args w r :
  fst (forward meth i this args w) = Returned r → r = this.
Proof.
  destruct (deref i this w) as [self|] eqn:H.
  - rewrite (forward_live _ _ _ _ _ _ H). simpl.
    destruct (snd (class_method meth (m_cls self) args (host w))); congruence.
  - by rewrite (forward_dangling _ _ _ _ _ H).
Qed.

Lemma chain_each_on i this cs w :
  chain i this cs w = each_on i this cs w.
Proof.
  revert w. induction cs as [|[meth args] cs IH]; intros w; simpl; [done|].
  unfold bind.
  destruct (forward meth i this args w) as [[r|e|] w1] eqn:Hf; try done.
  assert (r = this) as -> by (eapply forward_returned; by rewrite Hf).
  apply IH.
Qed.

Lemma each_on_returned i this cs w r :
  fst (each_on i this cs w) = Returned r → r = this.
Proof.
  revert w. induction cs as [|[meth args] cs IH]; intros w; simpl.
  - congruence.
  - unfold bind.
    destruct (forward meth i this args w) as [[r1|e|] w1]; simpl; try done.
    apply IH.
Qed.

(** C4.  Each of [def], [def_property], [def_property_readonly] and
    [def_property_readonly_static] can only return the reference it was
    called on, and does return it when the receiver is live and pybind11
    accepts the member; hence a fluent chain of any length is the same
    computation as the same calls made one by one on the first receiver,
    and what it returns is that receiver. *)
Theorem forwarding_returns_the_receiver i this :
  (∀ meth args w r,
     fst (forward meth i this args w) = Returned r → r = this) ∧
  (∀ meth args w self h' c,
     deref i this w = Some self →
     class_method meth (m_cls self) args (host w) = (h', inr c) →
     fst (forward meth i this args w) = Returned this) ∧
  (∀ cs w, chain i this cs w = each_on i this cs w) ∧
  (∀ cs w r, fst (chain i this cs w) = Returned r → r = this).
Proof.
  split; [intros; by eapply forward_returned|].
  split.
  { intros meth args w self h' c H Hc.
    rewrite (forward_live _ _ _ _ _ _ H). simpl. by rewrite Hc. }
  split; [apply chain_each_on|].
  intros cs w r. rewrite chain_each_on. apply each_on_returned.
Qed.

Lemma forward_ops_log i this self cs w :
  deref i this w = Some self →
  calls (run_ops (forward_ops i this cs) w) = calls w ++ sent (m_cls self) cs ∧
  host (run_ops (forward_ops i this cs) w) = host_after (m_cls self) cs (host w).
Proof.
  revert w. induction cs as [|[meth args] cs IH]; intros w H; simpl.
  - by rewrite app_nil_r.
  - rewrite (forward_live _ _ _ _ _ _ H). simpl.
    destruct (IH (with_host
                    (λ _, fst (class_method meth (m_cls self) args (host w)))
                    (class_method_call meth (m_cls self) args) w)) as [Hl Hh].
    { by rewrite deref_with_host. }
    rewrite Hl, Hh. simpl. by rewrite <- app_assoc.
Qed.

Lemma chain_returned_as_ops i this self cs w r w' :
  deref i this w = Some self →
  chain i this cs w = (Returned r, w') →
  w' = run_ops (forward_ops i this cs) w.
Proof.
  rewrite chain_each_on.
  revert w. induction cs as [|[meth args] cs IH]; intros w H; simpl.
  - unfold ret. congruence.
  - unfold bind.
    destruct (forward meth i this args w) as [[r1|e|] w1] eqn:Hf; try done.
    simpl. intros Hc. apply IH; [|done].
    replace w1 with (snd (forward meth i this args w)) by (by rewrite Hf).
    by rewrite forward_deref.
Qed.

Lemma chain_log_prefix i this self cs w :
  deref i this w = Some self →
  ∃ n, n ≤ length cs ∧
    calls (snd (chain i this cs w)) = calls w ++ sent (m_cls self) (take n cs) ∧
    (n < length cs → ∃ e, fst (chain i this cs w) = Thrown e).
Proof.
  revert w. induction cs as [|[meth args] cs IH]; intros w H.
  - exists 0. simpl. rewrite app_nil_r. repeat split; [lia..].
  - simpl. unfold bind. rewrite (forward_live _ _ _ _ _ _ H).
    destruct (snd (class_method meth (m_cls self) args (host w))) as [e|c].
    + exists 1. simpl. destruct cs; simpl; repeat split; try lia; eauto.
    + destruct (IH (with_host
                      (λ _, fst (class_method meth (m_cls self) args (host w)))
                      (class_method_call meth (m_cls self) args) w))
        as (n & Hn & Hl & Hthrown).
      { by rewrite deref_with_host. }
      exists (S n). simpl. split; [lia|]. split.
      * rewrite Hl. simpl. by rewrite <- app_assoc.
      * intros Hlt. apply Hthrown. lia.
Qed.

(** C5.  On a live receiver, any list of member declarations, made one
    after the other, reaches the class handle as exactly that list: one
    call per declaration, same member, same arguments, same order,
    repetitions included, appended to what was sent before; the
    interpreter sees them in that order.  A fluent chain that returns has
    done the same; a chain that is cut short by an exception has sent the
    declarations up to and including the one that failed. *)
Theorem registrations_are_forwarded_in_order i this self cs w :
  deref i this w = Some self →
  calls (run_ops (forward_ops i this cs) w) = calls w ++ sent (m_cls self) cs ∧
  length (calls (run_ops (forward_ops i this cs) w))
    = length (calls w) + length cs ∧
  host (run_ops (forward_ops i this cs) w)
    = host_after (m_cls self) cs (host w) ∧
  (∀ r w', chain i this cs w = (Returned r, w') →
     w' = run_ops (forward_ops i this cs) w) ∧
  (∃ n, n ≤ length cs ∧
     calls (snd (chain i this cs w))
       = calls w ++ sent (m_cls self) (take n cs) ∧
     (n < length cs → ∃ e, fst (chain i this cs w) = Thrown e)).
Proof.
  intros H. destruct (forward_ops_log i this self cs w H) as [Hl Hh].
  split; [done|]. split.
  { rewrite Hl, length_app. unfold sent. by rewrite length_map. }
  split; [done|]. split.
  - intros r w'. by apply chain_returned_as_ops with (self := self).
  - by apply chain_log_prefix.
Qed.

(* ===================================================================== *)
(** ** Properties of copies *)
(* ===================================================================== *)

Lemma copy_construct_live i src w o :
  deref i src w = Some o →
  copy_construct i src w =
    (Returned (automatic (length (autos w))),
     push_auto i o (with_host (class_copy (m_cls o)) (class_copy_call (m_cls o)) w)).
Proof. intros H. unfold copy_construct. rewrite H. by destruct o. Qed.

Lemma copy_assign_live i this src w self o :
  deref i this w = Some self → deref i src w = Some o →
  copy_assign i this src w =
    (Returned this,
     store i this o
       (with_host (class_assign (m_cls self) (m_cls o))
          (class_assign_call (m_cls self) (m_cls o)) w)).
Proof. intros Ht Hs. unfold copy_assign. rewrite Ht, Hs. by destruct o. Qed.

Lemma deref_push_auto_old i r j o w o' :
  deref i r w = Some o' → deref i r (push_auto j o w) = Some o'.
Proof.
  destruct r as [j'|k]; simpl; [done|].
  destruct (autos w !! k) as [[j0 o0]|] eqn:Hk; [|done].
  by rewrite (lookup_app_l_Some _ _ _ _ Hk).
Qed.

Lemma deref_push_auto_new i o w :
  deref i (automatic (length (autos w))) (push_auto i o w) = Some o.
Proof.
  simpl. rewrite list_lookup_middle by done. by rewrite decide_True.
Qed.

Lemma deref_store i this o w self :
  deref i this w = Some self → deref i this (store i this o w) = Some o.
Proof.
  destruct this as [j|k]; simpl.
  - case_decide; [|done]. intros _. by rewrite lookup_insert_eq.
  - destruct (autos w !! k) as [[j0 o0]|] eqn:Hk; [|done]. intros _.
    rewrite list_lookup_insert_eq by (by eapply lookup_lt_Some).
    by rewrite decide_True.
Qed.

(** C10.  Copy construction yields a new object whose [m_cls] is the handle
    of the source, copy assignment gives the receiver the handle of the
    source; either tells pybind11 of the copy and of nothing else, so the
    class declarations on record are the same before and after.  In every
    world that a client can reach, at most one class handle has been
    created for each instantiation, and every operation keeps it so. *)
Theorem copies_share_the_declared_class :
  (∀ i src w o,
     deref i src w = Some o →
     ∃ r' w',
       copy_construct i src w = (Returned r', w') ∧
       deref i r' w = None ∧
       deref i r' w' = Some o ∧
       deref i src w' = Some o ∧
       calls w' = calls w ++ [class_copy_call (m_cls o)] ∧
       ∀ j, issued j (calls w') = issued j (calls w) ∧
            created j (calls w') = created j (calls w)) ∧
  (∀ i this src w self o,
     deref i this w = Some self → deref i src w = Some o →
     ∃ w',
       copy_assign i this src w = (Returned this, w') ∧
       deref i this w' = Some o ∧
       calls w' = calls w ++ [class_assign_call (m_cls self) (m_cls o)] ∧
       ∀ j, issued j (calls w') = issued j (calls w) ∧
            created j (calls w') = created j (calls w)) ∧
  (∀ w, reachable w →
     ∀ op j, length (created j (calls w)) ≤ 1 ∧
             length (created j (calls (snd (run_op op w)))) ≤ 1).
Proof.
  split; [|split].
  - intros i src w o H. eexists _, _.
    split; [by apply copy_construct_live|].
    split; [simpl; by rewrite lookup_ge_None_2|].
    split; [apply (deref_push_auto_new i o (with_host _ _ w))|].
    split; [by apply deref_push_auto_old; rewrite deref_with_host|].
    split; [done|].
    intros j. simpl. rewrite issued_snoc, created_snoc. simpl.
    by rewrite !app_nil_r.
  - intros i this src w self o Ht Hs. eexists.
    split; [by eapply copy_assign_live|].
    split; [eapply deref_store; by rewrite deref_with_host|].
    split; [by destruct this|].
    intros j. destruct this; simpl; rewrite issued_snoc, created_snoc; simpl;
      by rewrite !app_nil_r.
  - intros w Hr op j.
    pose proof (reachable_consistent _ Hr) as Hw.
    pose proof (consistent_run_op op w Hw) as Hw'.
    rewrite (created_static _ Hw j), (created_static _ Hw' j).
    split; repeat case_match; simpl; lia.
Qed.

(* ===================================================================== *)
(** ** Further properties of the members *)
(* ===================================================================== *)

Lemma deref_set_static_other i j o r w :
  i ≠ j → deref j r (set_static i o w) = deref j r w.
Proof.
  intros Hne. destruct r as [j'|k]; simpl; [|done].
  case_decide; [|done]. subst. by rewrite lookup_insert_ne.
Qed.

Lemma deref_push_auto_other i j o r w :
  i ≠ j → deref j r (push_auto i o w) = deref j r w.
Proof.
  intros Hne. destruct r as [j'|k]; simpl; [done|].
  destruct (autos w !! k) as [[j0 o0]|] eqn:Hk.
  - by rewrite (lookup_app_l_Some _ _ _ _ Hk).
  - apply lookup_ge_None in Hk. rewrite lookup_app_r by done.
    destruct (k - length (autos w)) as [|n]; simpl; [|done].
    by rewrite decide_False.
Qed.

Lemma deref_store_other i j this o w self r :
  i ≠ j → deref i this w = Some self →
  deref j r (store i this o w) = deref j r w.
Proof.
  intros Hne Ht. destruct this as [i'|k]; simpl in *.
  - case_decide; [|done]. subst i'. by apply deref_set_static_other.
  - destruct (autos w !! k) as [[j0 o0]|] eqn:Hk; [|done].
    case_decide; [|done]. subst j0.
    destruct r as [j'|k']; simpl; [done|].
    destruct (decide (k = k')) as [<-|Hk'].
    + rewrite list_lookup_insert_eq by (by eapply lookup_lt_Some).
      rewrite Hk. by rewrite !decide_False.
    + by rewrite list_lookup_insert_ne.
Qed.

Lemma other_instantiation_run_op j op w :
  operation_type op ≠ j →
  (∀ r, deref j r (snd (run_op op w)) = deref j r w) ∧
  issued j (calls (snd (run_op op w))) = issued j (calls w) ∧
  created j (calls (snd (run_op op w))) = created j (calls w).
Proof.
  destruct op as [i pymod pyname clsdoc|meth i this args|i src|i this src];
    simpl; intros Hne.
  - destruct (statics w !! i) as [o|] eqn:Hs.
    { by rewrite (commit_registered _ _ _ _ _ _ Hs). }
    destruct (class_ctor (wrapped_type i) (holder_type i) pymod pyname clsdoc (host w))
      as [h' [e|cls]] eqn:Hc.
    + rewrite (commit_first_failure _ _ _ _ _ _ _ Hs Hc). simpl.
      split; [intros r; apply deref_with_host|].
      rewrite issued_snoc, created_snoc. simpl.
      rewrite decide_False by done. by rewrite !app_nil_r.
    + rewrite (commit_first_success _ _ _ _ _ _ _ Hs Hc). simpl.
      split.
      { intros r. rewrite deref_set_static_other by done.
        apply deref_with_host. }
      rewrite issued_snoc, created_snoc. simpl.
      rewrite !decide_False by done. by rewrite !app_nil_r.
  - split; [intros r; apply forward_deref|].
    destruct (deref i this w) as [self|] eqn:H.
    + rewrite (forward_live _ _ _ _ _ _ H). simpl.
      rewrite issued_snoc, created_snoc. simpl. by rewrite !app_nil_r.
    + by rewrite (forward_dangling _ _ _ _ _ H).
  - unfold copy_construct. destruct (deref i src w) as [o|] eqn:H; [|done].
    simpl. split.
    { intros r. rewrite deref_push_auto_other by done. apply deref_with_host. }
    rewrite issued_snoc, created_snoc. simpl. by rewrite !app_nil_r.
  - unfold copy_assign.
    destruct (deref i this w) as [self|] eqn:Ht; [|done].
    destruct (deref i src w) as [o|] eqn:Hsrc; [|done]. simpl.
    split.
    { intros r. rewrite (deref_store_other i j this _ _ self) by
        (by rewrite ?deref_with_host).
      apply deref_with_host. }
    destruct this; simpl; rewrite issued_snoc, created_snoc; simpl;
      by rewrite !app_nil_r.
Qed.

(** X1.  Each instantiation has its own static and its own objects: a
    client program none of whose operations is a member of [WrapBase<j>]
    leaves every object of [WrapBase<j>] as it was, initialised or not,
    and requests and obtains no class for [j]. *)
Theorem other_instantiations_are_untouched j ops w :
  Forall (λ op, operation_type op ≠ j) ops →
  (∀ r, deref j r (run_ops ops w) = deref j r w) ∧
  statics (run_ops ops w) !! j = statics w !! j ∧
  issued j (calls (run_ops ops w)) = issued j (calls w) ∧
  created j (calls (run_ops ops w)) = created j (calls w).
Proof.
  intros Hall. revert w.
  induction Hall as [|op ops Hop Hall IH]; intros w; simpl; [done|].
  destruct (IH (snd (run_op op w))) as (Hd & _ & Hi & Hc).
  destruct (other_instantiation_run_op j op w Hop) as (Hd1 & Hi1 & Hc1).
  assert (∀ r, deref j r (run_ops ops (snd (run_op op w))) = deref j r w) as Hd2
    by (intros r; by rewrite Hd, Hd1).
  split; [done|]. split.
  - specialize (Hd2 (static_derived j)). simpl in Hd2.
    by rewrite !decide_True in Hd2.
  - by rewrite Hi, Hi1, Hc, Hc1.
Qed.

(** X2.  In every world that a client can reach, all objects of one
    instantiation, the static and its copies alike, hold the same class
    handle; a copy assignment between two of them therefore returns its
    receiver and changes no object. *)
Theorem copies_hold_one_handle i w :
  reachable w →
  (∀ r1 r2 o1 o2,
     deref i r1 w = Some o1 → deref i r2 w = Some o2 → m_cls o1 = m_cls o2) ∧
  (∀ this src,
     is_Some (deref i this w) → is_Some (deref i src w) →
     fst (copy_assign i this src w) = Returned this ∧
     statics (snd (copy_assign i this src w)) = statics w ∧
     autos (snd (copy_assign i this src w)) = autos w).
Proof.
  intros Hr. pose proof (reachable_consistent _ Hr) as Hw. split.
  - intros r1 r2 o1 o2 H1 H2.
    pose proof (consistent_deref _ _ _ _ Hw H1).
    pose proof (consistent_deref _ _ _ _ Hw H2). congruence.
  - intros this src [self Ht] [o Hs].
    pose proof (consistent_deref _ _ _ _ Hw Ht) as Hst.
    pose proof (consistent_deref _ _ _ _ Hw Hs) as Hso.
    assert (self = o) as -> by congruence.
    rewrite (copy_assign_live _ _ _ _ _ _ Ht Hs). simpl.
    split; [done|]. destruct this as [j|k]; simpl in *.
    + case_decide; [|done]. subst j. split; [|done]. by apply insert_id.
    + split; [done|].
      destruct (autos w !! k) as [[j0 o0]|] eqn:Hk; [|done].
      case_decide; [|done]. simplify_eq. by apply list_insert_id.
Qed.

End Runtime.

(* ===================================================================== *)
(** ** Frame of the forwarding members *)
(* ===================================================================== *)

(** C9.  A call of a forwarding member changes no [WrapBase] object: the
    statics and the automatic objects, hence whatever any reference
    designates and in particular [m_cls] of the receiver, are as before.
    On a live receiver the whole effect is the one call of the primitive on
    [m_cls]: the interpreter state becomes what the primitive made of it
    and the log grows by that call.  The [class_ &] that the primitive
    returns is not used: two primitives that differ only in that value
    give the same outcome and the same world. *)
Theorem forwarding_leaves_the_wrapper_unchanged
    {Module Handle Args Failure HostState : Type}
    (class_method class_method' :
       method → Handle → Args → HostState → HostState * (Failure + Handle))
    (meth : method) (i : instantiation) (this : ref) (args : Args)
    (w : @world Module Handle Args HostState) :
  statics (snd (forward class_method meth i this args w)) = statics w ∧
  autos (snd (forward class_method meth i this args w)) = autos w ∧
  (∀ j r, deref j r (snd (forward class_method meth i this args w))
          = deref j r w) ∧
  (∀ self, deref i this w = Some self →
     host (snd (forward class_method meth i this args w))
       = fst (class_method meth (m_cls self) args (host w)) ∧
     calls (snd (forward class_method meth i this args w))
       = calls w ++ [class_method_call meth (m_cls self) args]) ∧
  ((∀ cls h, without_result (class_method meth cls args h)
             = without_result (class_method' meth cls args h)) →
   forward class_method meth i this args w
     = forward class_method' meth i this args w).
Proof.
  destruct (forward_frame class_method meth i this args w) as [Hs Ha].
  split; [done|]. split; [done|].
  split; [intros; apply forward_deref|].
  split.
  - intros self H. by rewrite (forward_live _ _ _ _ _ _ _ H).
  - intros Hsame. destruct (deref i this w) as [self|] eqn:H.
    + rewrite !(forward_live _ _ _ _ _ _ _ H).
      specialize (Hsame (m_cls self) (host w)). unfold without_result in Hsame.
      destruct (class_method meth (m_cls self) args (host w)) as [h1 [e1|c1]],
               (class_method' meth (m_cls self) args (host w)) as [h2 [e2|c2]];
        simpl in *; by simplify_eq.
    + by rewrite !(forward_dangling _ _ _ _ _ _ H).
Qed.

(* ===================================================================== *)
(** ** The special members and the constructors *)
(* ===================================================================== *)

Lemma construct_WrapBase_cases tr wd ctx tgt a :
  Declarations.construct tr wd ctx tgt Declarations.WrapBase_class a =
    match a with
    | Declarations.no_argument =>
        Declarations.uses_deleted Declarations.default_ctor
    | Declarations.object_argument Declarations.xvalue Declarations.non_const =>
        Declarations.uses_deleted Declarations.move_ctor
    | Declarations.object_argument _ _ =>
        if Declarations.copy_constructible tr
        then Declarations.well_formed Declarations.copy_ctor
        else Declarations.uses_deleted Declarations.copy_ctor
    | Declarations.module_name_doc =>
        if Declarations.accessible wd ctx tgt Declarations.WrapBase_class
             Declarations.module_ctor
        then Declarations.well_formed Declarations.module_ctor
        else Declarations.inaccessible Declarations.module_ctor
    end.
Proof.
  destruct tr as [[] ca], a as [|[] []|]; reflexivity.
Qed.

Lemma construct_wrapper_cases tr wd ctx tgt a :
  Declarations.construct tr wd ctx tgt Declarations.wrapper_class a =
    match a with
    | Declarations.no_argument => Declarations.no_match
    | Declarations.object_argument _ _ =>
        if Declarations.copy_constructible tr
        then Declarations.well_formed Declarations.copy_ctor
        else Declarations.uses_deleted Declarations.copy_ctor
    | Declarations.module_name_doc =>
        if Declarations.accessible wd ctx tgt Declarations.wrapper_class
             Declarations.module_ctor
        then Declarations.well_formed Declarations.module_ctor
        else Declarations.inaccessible Declarations.module_ctor
    end.
Proof.
  destruct tr as [[] ca], a as [|[] []|]; reflexivity.
Qed.

Lemma assign_cases tr wd ctx c a :
  Declarations.assign tr wd ctx c a =
    match a with
    | Declarations.object_argument v q =>
        match c, v, q with
        | Declarations.WrapBase_class, Declarations.xvalue,
          Declarations.non_const =>
            Declarations.uses_deleted Declarations.move_assignment
        | _, _, _ =>
            if Declarations.copy_assignable tr
            then Declarations.well_formed Declarations.copy_assignment
            else Declarations.uses_deleted Declarations.copy_assignment
        end
    | _ => Declarations.no_match
    end.
Proof.
  destruct tr as [cc []], c, a as [|[] []|]; reflexivity.
Qed.





(* ===================================================================== *)
(** ** The theorems at work on the small host *)
(* ===================================================================== *)

Local Open Scope string_scope.

Local Abbreviation toy_world :=
  (@world string nat string (list Toy.toy_class)).
Local Abbreviation toy_commit :=
  (@commit string nat string string (list Toy.toy_class) Toy.class_ctor).
Local Abbreviation toy_forward :=
  (@forward string nat string string (list Toy.toy_class) Toy.class_method).
Local Abbreviation toy_chain :=
  (@chain string nat string string (list Toy.toy_class) Toy.class_method).
Local Abbreviation toy_each_on :=
  (@each_on string nat string string (list Toy.toy_class) Toy.class_method).
Local Abbreviation toy_copy_construct :=
  (@copy_construct string nat string string (list Toy.toy_class) Toy.class_copy).
Local Abbreviation toy_copy_assign :=
  (@copy_assign string nat string string (list Toy.toy_class) Toy.class_assign).
Local Abbreviation toy_run :=
  (@run_ops string nat string string (list Toy.toy_class)
     Toy.class_ctor Toy.class_method Toy.class_copy Toy.class_assign).
Local Abbreviation toy_reachable :=
  (@reachable string nat string string (list Toy.toy_class)
     Toy.class_ctor Toy.class_method Toy.class_copy Toy.class_assign).

(** [WrapVector::commit(m, "Vector", "doc1")] at process start. *)
Local Abbreviation Vector_static := (static_derived Toy.WrapVector).
Local Abbreviation start := (initial [] : toy_world).
Local Abbreviation registered :=
  (snd (toy_commit Toy.WrapVector "m" "Vector" "doc1" start)).

(** A client that declares a member, copies the wrapper, assigns the copy
    back and commits a second wrapper, first under a name that is taken. *)
Local Abbreviation client :=
  ([op_forward def Toy.WrapVector Vector_static "norm";
    op_copy_construct Toy.WrapVector Vector_static;
    op_copy_assign Toy.WrapVector Vector_static (automatic 0);
    op_commit Toy.WrapMatrix "m" "Vector" "x";
    op_commit Toy.WrapMatrix "m" "Matrix" "mat"]
   : list (@operation string string)).

Lemma commit_returns_the_first_instance_witness :
  toy_commit Toy.WrapVector "m" "Vector" "doc2" (toy_run client registered)
    = (Returned Vector_static, toy_run client registered) ∧
  is_Some (deref Toy.WrapVector Vector_static registered) ∧
  deref Toy.WrapVector Vector_static (toy_run client registered)
    = deref Toy.WrapVector Vector_static registered ∧
  issued Toy.WrapVector (calls (toy_run client registered))
    = [("m", "Vector", "doc1")].
Proof.
  apply (commit_returns_the_first_instance
           Toy.class_ctor Toy.class_method Toy.class_copy Toy.class_assign
           Toy.WrapVector "m" "Vector" "doc1" start Vector_static registered
           client "m" "Vector" "doc2").
  - exists [], []. reflexivity.
  - reflexivity.
  - reflexivity.
Defined.

Lemma commit_first_call_declares_class_witness :
  ∃ w' : toy_world,
    toy_commit Toy.WrapVector "m" "Vector" "doc1" start
      = (Returned Vector_static, w') ∧
    deref Toy.WrapVector Vector_static w' = Some {| m_cls := 0 |} ∧
    calls w' =
      [class_ctor_call Toy.WrapVector
         (class_type "Vector") (std_unique_ptr (class_type "Vector"))
         "m" "Vector" "doc1" (Some 0)].
Proof.
  destruct (commit_first_call_declares_class Toy.class_ctor
              Toy.WrapVector "m" "Vector" "doc1" start _ 0 eq_refl eq_refl)
    as (w' & H1 & H2 & _ & H4 & _).
  exists w'. repeat split; assumption.
Defined.

(** The name ["Vector"] is already taken in module ["m"]. *)
Local Abbreviation taken :=
  (initial [{| Toy.c_module := "m"; Toy.c_name := "Vector";
               Toy.c_doc := "someone else's";
               Toy.c_wrapped := class_type "Other";
               Toy.c_holder := std_shared_ptr (class_type "Other");
               Toy.c_members := [] |}] : toy_world).

Lemma commit_failure_is_not_cached_witness :
  ∃ w' : toy_world,
    toy_commit Toy.WrapVector "m" "Vector" "doc1" taken
      = (Thrown "name already taken", w') ∧
    statics w' !! Toy.WrapVector = None ∧
    fst (toy_commit Toy.WrapVector "m" "Vector3" "doc2" w')
      = Returned Vector_static ∧
    statics (snd (toy_commit Toy.WrapVector "m" "Vector3" "doc2" w'))
      !! Toy.WrapVector = Some {| m_cls := 1 |}.
Proof.
  destruct (commit_failure_is_not_cached Toy.class_ctor
              Toy.WrapVector "m" "Vector" "doc1" taken _ _ eq_refl eq_refl)
    as (w' & H1 & H2 & _ & _ & _ & _ & H7).
  exists w'. split; [exact H1|]. split; [by rewrite H2|].
  destruct (H7 "m" "Vector3" "doc2") as (_ & H8 & H9).
  split; [exact H8 | exact H9].
Defined.

Lemma forwarding_returns_the_receiver_witness :
  fst (toy_forward def_property Toy.WrapVector Vector_static "x" registered)
    = Returned Vector_static ∧
  toy_chain Toy.WrapVector Vector_static
      [(def, "norm"); (def_property, "x"); (def_property_readonly, "size")]
      registered
    = toy_each_on Toy.WrapVector Vector_static
        [(def, "norm"); (def_property, "x"); (def_property_readonly, "size")]
        registered.
Proof.
  destruct (@forwarding_returns_the_receiver
              string nat string string (list Toy.toy_class) Toy.class_method
              Toy.WrapVector Vector_static) as (_ & H2 & H3 & _).
  split; [|apply H3].
  apply (H2 def_property "x" registered {| m_cls := 0 |} _ 0 eq_refl eq_refl).
Defined.

Lemma registrations_are_forwarded_in_order_witness :
  calls (toy_run
           (forward_ops Toy.WrapVector Vector_static
              [(def, "a"); (def, "b"); (def, "c"); (def, "a")])
           registered)
    = (calls registered ++
       [class_method_call def 0 "a"; class_method_call def 0 "b";
        class_method_call def 0 "c"; class_method_call def 0 "a"])%list.
Proof.
  apply (registrations_are_forwarded_in_order
           Toy.class_ctor Toy.class_method Toy.class_copy Toy.class_assign
           Toy.WrapVector Vector_static {| m_cls := 0 |}
           [(def, "a"); (def, "b"); (def, "c"); (def, "a")] registered
           eq_refl).
Defined.



Lemma forwarding_leaves_the_wrapper_unchanged_witness :
  toy_forward def Toy.WrapVector Vector_static "norm" registered
    = forward (λ meth cls name h,
                 (fst (Toy.class_method meth cls name h),
                  match snd (Toy.class_method meth cls name h) with
                  | inl e => inl e
                  | inr _ => inr 42
                  end))
        def Toy.WrapVector Vector_static "norm" registered ∧
  deref Toy.WrapVector Vector_static
    (snd (toy_forward def Toy.WrapVector Vector_static "norm" registered))
    = Some {| m_cls := 0 |}.
Proof.
  destruct (forwarding_leaves_the_wrapper_unchanged
              Toy.class_method
              (λ meth cls name h,
                 (fst (Toy.class_method meth cls name h),
                  match snd (Toy.class_method meth cls name h) with
                  | inl e => inl e
                  | inr _ => inr 42
                  end))
              def Toy.WrapVector Vector_static "norm" registered)
    as (_ & _ & H3 & _ & H5).
  split.
  - apply H5. intros cls h. unfold without_result. simpl.
    destruct (snd (Toy.class_method def cls "norm" h)); reflexivity.
  - rewrite H3. reflexivity.
Defined.

Lemma copies_share_the_declared_class_witness :
  (∃ (r' : ref) (w' : toy_world),
     toy_copy_construct Toy.WrapVector Vector_static registered
       = (Returned r', w') ∧
     deref Toy.WrapVector r' w' = Some {| m_cls := 0 |} ∧
     issued Toy.WrapVector (calls w') = issued Toy.WrapVector (calls registered)) ∧
  (length (created Toy.WrapVector (calls (toy_run client registered))) ≤ 1)%nat.
Proof.
  destruct (copies_share_the_declared_class
              Toy.class_ctor Toy.class_method Toy.class_copy Toy.class_assign)
    as (H1 & _ & H3).
  split.
  - destruct (H1 Toy.WrapVector Vector_static registered {| m_cls := 0 |} eq_refl)
      as (r' & w' & Hc & _ & Hd & _ & _ & Hi).
    exists r', w'. split; [exact Hc|]. split; [exact Hd|]. apply Hi.
  - assert (toy_reachable (toy_run client registered)) as Hr.
    { exists [], (op_commit Toy.WrapVector "m" "Vector" "doc1" :: client).
      reflexivity. }
    apply (H3 _ Hr (op_commit Toy.WrapVector "m" "Vector" "doc1") Toy.WrapVector).
Defined.

(** [WrapMatrix] is committed first; the client then works on [WrapVector]
    only. *)
Local Abbreviation Matrix_registered :=
  (snd (toy_commit Toy.WrapMatrix "m" "Matrix" "mat" start)).
Local Abbreviation Vector_client :=
  ([op_commit Toy.WrapVector "m" "Vector" "doc1";
    op_forward def Toy.WrapVector Vector_static "norm";
    op_copy_construct Toy.WrapVector Vector_static;
    op_copy_assign Toy.WrapVector (automatic 0) Vector_static]
   : list (@operation string string)).

Lemma other_instantiations_are_untouched_witness :
  deref Toy.WrapMatrix (static_derived Toy.WrapMatrix)
      (toy_run Vector_client Matrix_registered)
    = Some {| m_cls := 0 |} ∧
  issued Toy.WrapMatrix (calls (toy_run Vector_client Matrix_registered))
    = [("m", "Matrix", "mat")].
Proof.
  destruct (other_instantiations_are_untouched
              Toy.class_ctor Toy.class_method Toy.class_copy Toy.class_assign
              Toy.WrapMatrix Vector_client Matrix_registered)
    as (Hd & _ & Hi & _).
  { repeat (constructor; [discriminate|]). constructor. }
  split; [apply Hd | apply Hi].
Defined.

Lemma copies_hold_one_handle_witness :
  fst (toy_copy_assign Toy.WrapVector Vector_static (automatic 0)
         (toy_run client registered))
    = Returned Vector_static ∧
  statics (snd (toy_copy_assign Toy.WrapVector Vector_static (automatic 0)
                  (toy_run client registered)))
    = statics (toy_run client registered).
Proof.
  assert (toy_reachable (toy_run client registered)) as Hr.
  { exists [], (op_commit Toy.WrapVector "m" "Vector" "doc1" :: client).
    reflexivity. }
  destruct (copies_hold_one_handle
              Toy.class_ctor Toy.class_method Toy.class_copy Toy.class_assign
              Toy.WrapVector _ Hr) as (_ & H2).
  destruct (H2 Vector_static (automatic 0)) as (Ha & Hb & _).
  - exists {| m_cls := 0 |}. reflexivity.
  - exists {| m_cls := 0 |}. reflexivity.
  - split; [exact Ha | exact Hb].
Defined.
